(** * D-RATS main window: tab lifecycle, notices, status bar, menu actions

    A shallow embedding of [d_rats/mainwindow.py] (class [MainWindow]).

    The Python object's attributes ([tabs], [_current_tab],
    [__last_status]) and the state of the widgets it drives (the two
    status bars, the urgency hint) form the record [MainWindow].  Every
    handler is a computation in a small state-and-exception monad that
    also records, in order, the calls it makes on its collaborators (tab
    objects, GTK widgets, the signal bus, platform services; log lines
    are left out).  What a handler merely reads from its surroundings
    (configuration values, the clock, focus, the file system, dialog
    answers) is gathered in [Env].  Clock readings are rationals, in
    seconds. *)

From Stdlib Require Import ZArith QArith Qround Lqa.
From stdpp Require Import gmap strings list fin_maps.

Set Default Proof Using "Type".

(** ** Data model *)

(** The five tab objects built by [__init__], one per class. *)
Inductive Tab : Type :=
| ChatTab
| MessagesTab
| EventTab
| FilesTab
| StationsList.

#[global] Instance Tab_eq_dec : EqDecision Tab.
Proof. solve_decision. Defined.

(** [Gtk.ResponseType], the value returned by [dialog.run()]. *)
Inductive ResponseType : Type :=
| NONE | REJECT | ACCEPT | DELETE_EVENT | OK | CANCEL | CLOSE
| YES | NO | APPLY | HELP.

#[global] Instance ResponseType_eq_dec : EqDecision ResponseType.
Proof. solve_decision. Defined.

(** Python exceptions the modelled handlers can raise. *)
Inductive exn : Type :=
| IndexError
| KeyError (key : string)
| UnboundLocalError (name : string).

#[global] Instance exn_eq_dec : EqDecision exn.
Proof. solve_decision. Defined.

(** Calls on collaborators, in the order the handlers make them. *)
Inductive call : Type :=
| tab_deselected (tab : Tab)
| tab_selected (tab : Tab)
| window_set_urgency_hint (setting : bool)
| window_set_default_size (width height : Z)
| window_set_title (title : string)
| statusbar_pop (bar : string)
| statusbar_push (bar : string) (text : string)
| platform_play_sound (soundf : string)
| emit_show_map_station (station : string)
| emit_get_chat_port
| emit_user_send_chat (group port text : string) (broadcast : bool)
| confirmation_prompt (question : string)
| application_quit
| subprocess_Popen (args : list string)
| config_set (section option value : string)
| pane_show
| pane_hide.

#[global] Instance call_eq_dec : EqDecision call.
Proof. solve_decision. Defined.

(** The window object and the widgets whose contents it owns.
    [statusbar] and [callbar] are the message stacks of the two
    [Gtk.Statusbar] widgets, top first (the top is the visible text). *)
Record MainWindow : Type := mkMainWindow {
  tabs : gmap string Tab;
  _current_tab : string;
  __last_status : Q;
  statusbar : list string;
  callbar : list string;
  urgency_hint : bool
}.

(** What a handler reads from outside the window at the moment it runs. *)
Record Env : Type := mkEnv {
  config_getboolean : string -> string -> bool;
  config_get : string -> string -> string;
  window_is_active : bool;
  window_get_size : Z * Z;
  time_time : Q;
  sys_platform : string;
  sys_executable : string;
  os_path_exists : string -> bool;
  chat_port_reply : string;
  confirmation_answer : bool;
  tabs_get_current_page : Z
}.

(** ** The handler monad: state, call trace, exceptions *)

Inductive outcome (A : Type) : Type :=
| Return (value : A)
| Raise (error : exn).
Arguments Return {A} value.
Arguments Raise {A} error.

Record Run (A : Type) : Type := mkRun {
  final : MainWindow;
  calls : list call;
  result : outcome A
}.
Arguments mkRun {A} final calls result.
Arguments final {A} r.
Arguments calls {A} r.
Arguments result {A} r.

Definition M (A : Type) : Type := MainWindow -> Run A.

Definition ret {A} (a : A) : M A := fun s => mkRun s [] (Return a).

Definition raise {A} (e : exn) : M A := fun s => mkRun s [] (Raise e).

Definition bind {A B} (m : M A) (f : A -> M B) : M B := fun s =>
  let r := m s in
  match result r with
  | Return a =>
      let r' := f a (final r) in
      mkRun (final r') (calls r ++ calls r') (result r')
  | Raise e => mkRun (final r) (calls r) (Raise e)
  end.

#[global] Instance M_ret : MRet M := @ret.
#[global] Instance M_bind : MBind M := fun A B f m => bind m f.

Definition get_self : M MainWindow := fun s => mkRun s [] (Return s).
Definition modify (f : MainWindow -> MainWindow) : M unit :=
  fun s => mkRun (f s) [] (Return tt).
Definition do_call (c : call) : M unit := fun s => mkRun s [c] (Return tt).
Definition when (b : bool) (m : M unit) : M unit := if b then m else mret tt.

(** ** Attribute and widget primitives *)

Definition with_current_tab (key : string) (s : MainWindow) : MainWindow :=
  mkMainWindow (tabs s) key (__last_status s)
               (statusbar s) (callbar s) (urgency_hint s).

Definition with_last_status (now : Q) (s : MainWindow) : MainWindow :=
  mkMainWindow (tabs s) (_current_tab s) now
               (statusbar s) (callbar s) (urgency_hint s).

Definition with_statusbar (stack : list string) (s : MainWindow) : MainWindow :=
  mkMainWindow (tabs s) (_current_tab s) (__last_status s)
               stack (callbar s) (urgency_hint s).

Definition with_callbar (stack : list string) (s : MainWindow) : MainWindow :=
  mkMainWindow (tabs s) (_current_tab s) (__last_status s)
               (statusbar s) stack (urgency_hint s).

Definition with_urgency_hint (setting : bool) (s : MainWindow) : MainWindow :=
  mkMainWindow (tabs s) (_current_tab s) (__last_status s)
               (statusbar s) (callbar s) setting.

(** [self.tabs[key]]: a missing key raises [KeyError]. *)
Definition tabs_getitem (key : string) : M Tab :=
  s ← get_self;
  match tabs s !! key with
  | Some tab => mret tab
  | None => raise (KeyError key)
  end.

(** [Gtk.Statusbar.pop] removes the top message and does nothing on an
    empty stack; [push] puts a message on top. *)
Definition status_bar_pop : M unit :=
  modify (fun s => with_statusbar (tail (statusbar s)) s) ;;
  do_call (statusbar_pop "statusbar").

Definition status_bar_push (msg : string) : M unit :=
  modify (fun s => with_statusbar (msg :: statusbar s) s) ;;
  do_call (statusbar_push "statusbar" msg).

Definition call_bar_pop : M unit :=
  modify (fun s => with_callbar (tail (callbar s)) s) ;;
  do_call (statusbar_pop "callbar").

Definition call_bar_push (msg : string) : M unit :=
  modify (fun s => with_callbar (msg :: callbar s) s) ;;
  do_call (statusbar_push "callbar" msg).

Definition set_urgency_hint (setting : bool) : M unit :=
  modify (with_urgency_hint setting) ;;
  do_call (window_set_urgency_hint setting).

(** Python list indexing: a negative index counts from the end; anything
    outside [-len, len) raises [IndexError] (here: [None]). *)
Definition list_getitem {A} (l : list A) (index : Z) : option A :=
  if (0 <=? index)%Z then l !! Z.to_nat index
  else if (- Z.of_nat (length l) <=? index)%Z
       then l !! Z.to_nat (Z.of_nat (length l) + index)
       else None.

(** ** The handlers of [MainWindow] *)

(** [__init__]: the registry of five tabs, "messages" current, no status
    recorded yet.  The status bars come empty out of the builder and the
    urgency hint is off. *)
Definition __init__ : MainWindow :=
  mkMainWindow
    (<["stations" := StationsList]>
       (<["files" := FilesTab]>
          (<["event" := EventTab]>
             (<["messages" := MessagesTab]>
                (<["chat" := ChatTab]> ∅)))))
    "messages" 0%Q [] [] false.

(** The period, in milliseconds, handed to [GLib.timeout_add] together
    with [__update_status] at the end of [__init__]. *)
Definition status_timeout_ms : Z := 3000.

(** [time.time() - last > 30], on rationals. *)
Definition Qgt_bool (x y : Q) : bool := negb (Qle_bool x y).

Definition _delete (env : Env) : M bool :=
  let proceed :=
    let '(width, height) := window_get_size env in
    do_call (window_set_default_size width height) ;;
    do_call application_quit ;;
    mret true in
  if config_getboolean env "prefs" "confirm_exit" then
    do_call (confirmation_prompt "Really exit D-RATS?") ;;
    if negb (confirmation_answer env) then mret true else proceed
  else proceed.

Definition _destroy : M unit := mret tt.

(** The size is read here, from [env], and once more inside [_delete],
    after its confirmation prompt; [at_close] is what [_delete] reads. *)
Definition _activate_save_and_quit (env at_close : Env) : M unit :=
  let '(width, height) := window_get_size env in
  do_call (window_set_default_size width height) ;;
  _delete at_close ;;
  mret tt.

(** [str(active)] for a Python [bool]. *)
Definition str_bool (active : bool) : string :=
  if active then "True" else "False".

(** [active] is what [button.get_active()] returned. *)
Definition _activate_conninet (active : bool) : M unit :=
  do_call (config_set "state" "connected_inet" (str_bool active)).

Definition _activate_station_pane (active : bool) : M unit :=
  do_call (config_set "state" "sidepane_visible" (str_bool active)) ;;
  if active then do_call pane_show else do_call pane_hide.

Definition _activate_map (env : Env) : M unit :=
  let call := config_get env "user" "callsign" in
  do_call (emit_show_map_station call).

(** [run_status] is what [dlg.run()] returned and [d_text] what
    [cmd.get_text()] held when the dialog closed. *)
Definition _activate_dq (env : Env) (run_status : ResponseType)
    (d_text : string) : M unit :=
  if decide (run_status = OK) then
    do_call emit_get_chat_port ;;
    let port := chat_port_reply env in
    do_call (emit_user_send_chat "CQCQCQ" port ("?D*" +:+ d_text +:+ "?") true)
  else mret tt.

(** The handler is modelled up to its call of [subprocess.Popen]; what
    that call does with the list, its failure when the binary cannot be
    started included, is outside the model. *)
Definition _activate_proxy (env : Env) : M unit :=
  let args :=
    if negb (bool_decide (sys_platform env = "darwin")) then []
    else [sys_executable env] in
  let args :=
    if os_path_exists env "./d-rats_repeater"
    then args ++ ["./d-rats_repeater"]
    else args ++ ["d-rats_repeater"] in
  do_call (subprocess_Popen args).

Definition tab_labels : list string := ["messages"; "chat"; "files"; "event"].

(** The two notebook queries of the source ([get_nth_page],
    [get_menu_label_text]) produce values that are never used; they are
    taken to succeed, as they do for the page numbers the notebook
    delivers. *)
Definition _page_name (env : Env) (index : option Z) : M string :=
  let index :=
    match index with
    | None => tabs_get_current_page env
    | Some index => index
    end in
  match list_getitem tab_labels index with
  | Some key => mret key
  | None => raise IndexError
  end.

(** [page_num] is the unsigned page number of the notebook's
    "switch-page" signal. *)
Definition _tab_switched (env : Env) (page_num : N) : M unit :=
  tab ← _page_name env (Some (Z.of_N page_num));
  s ← get_self;
  old ← tabs_getitem (_current_tab s);
  do_call (tab_deselected old) ;;
  modify (with_current_tab tab) ;;
  s ← get_self;
  new ← tabs_getitem (_current_tab s);
  do_call (tab_selected new).

Definition _maybe_blink (env : Env) (key : string) : M unit :=
  let blink := config_getboolean env "prefs" ("blink_" +:+ key) in
  when (blink && negb (window_is_active env)) (set_urgency_hint true) ;;
  let '(sounde, soundf) :=
    if bool_decide (key = "event") then (false, None)
    else (config_getboolean env "sounds" (key +:+ "_enabled"),
          Some (config_get env "sounds" key)) in
  if sounde then
    match soundf with
    | Some soundf => do_call (platform_play_sound soundf)
    | None => raise (UnboundLocalError "soundf")
    end
  else mret tt.

Definition _got_focus : M unit := set_urgency_hint false.

Definition __update_status (env : Env) : M bool :=
  s ← get_self;
  when (Qgt_bool (time_time env - __last_status s) 30) status_bar_pop ;;
  mret true.

Definition set_status (env : Env) (msg : string) : M unit :=
  modify (with_last_status (time_time env)) ;;
  status_bar_pop ;;
  status_bar_push msg ;;
  let call := config_get env "user" "callsign" in
  do_call (window_set_title ("D-RATS: " +:+ call)) ;;
  call_bar_pop ;;
  call_bar_push call.

(** ** The event loop *)

(** What the toolkit and the application deliver to the window. *)
Inductive event : Type :=
| switch_page (page_num : N)
| notice (label : string)
| focus_in_event
| status_timeout
| status_message (msg : string)
| delete_event
| destroy
| main_menu_quit (at_close : Env)
| main_menu_map
| main_menu_dq (run_status : ResponseType) (d_text : string)
| main_menu_proxy
| main_menu_conninet (active : bool)
| main_menu_showpane (active : bool).

Definition handle (env : Env) (ev : event) : M unit :=
  match ev with
  | switch_page page_num => _tab_switched env page_num
  | notice label => _maybe_blink env label
  | focus_in_event => _got_focus
  | status_timeout => __update_status env ;; mret tt
  | status_message msg => set_status env msg
  | delete_event => _delete env ;; mret tt
  | destroy => _destroy
  | main_menu_quit at_close => _activate_save_and_quit env at_close
  | main_menu_map => _activate_map env
  | main_menu_dq run_status d_text => _activate_dq env run_status d_text
  | main_menu_proxy => _activate_proxy env
  | main_menu_conninet active => _activate_conninet active
  | main_menu_showpane active => _activate_station_pane active
  end.

(** Events are handled one after the other.  An exception that escapes a
    handler is reported by the binding layer and the loop goes on with
    the state the handler left. *)
Fixpoint main_loop (events : list (Env * event)) (s : MainWindow)
  : MainWindow * list call :=
  match events with
  | [] => (s, [])
  | (env, ev) :: events =>
      let r := handle env ev s in
      let '(s', trace) := main_loop events (final r) in
      (s', calls r ++ trace)
  end.

(** The environment [env] with the clock reading [now]. *)
Definition at_time (env : Env) (now : Q) : Env :=
  mkEnv (config_getboolean env) (config_get env) (window_is_active env)
        (window_get_size env) now (sys_platform env) (sys_executable env)
        (os_path_exists env) (chat_port_reply env) (confirmation_answer env)
        (tabs_get_current_page env).

(** [GLib.timeout_add interval handler] started at time [start]: the
    handler runs once per period, for as long as it returns [True].
    [periods] is the number of periods that elapse. *)
Fixpoint timeout_add (interval : Z) (handler : Env -> M bool) (env : Env)
    (start : Q) (periods : nat) (s : MainWindow) : MainWindow :=
  match periods with
  | O => s
  | S periods =>
      let now := (start + inject_Z interval / 1000)%Q in
      let r := handler (at_time env now) s in
      match result r with
      | Return true => timeout_add interval handler env now periods (final r)
      | _ => final r
      end
  end.

(** A run of [__update_status] at each of the clock readings [ticks]. *)
Definition run_ticks (env : Env) (ticks : list Q) (s : MainWindow) : MainWindow :=
  foldl (fun s now => final (__update_status (at_time env now) s)) s ticks.

(** A sample environment: every boolean option on, the window unfocused. *)
Definition sample_env : Env :=
  mkEnv (fun _ _ => true)
        (fun section option =>
           if bool_decide (section = "user") then "W1AW" else option +:+ ".wav")
        false (800, 600)%Z 100%Q "linux" "/usr/bin/python3"
        (fun _ => false) "DEFAULT" false 0%Z.

Definition state_after (events : list (Env * event)) : MainWindow :=
  (main_loop events __init__).1.

(** ** Notions used in the statements *)

(** What holds of the window after [__init__] and after every handler. *)
Record invariant (s : MainWindow) : Prop := mkInvariant {
  inv_tabs : tabs s = tabs __init__;
  inv_current : _current_tab s ∈ tab_labels;
  inv_statusbar : length (statusbar s) <= 1;
  inv_callbar : length (callbar s) <= 1
}.

(** The lifecycle as the specification words it: a switch to another tab
    deselects the old one and then selects the new one, and a switch to
    the tab that is already current makes no call at all. *)
Definition lifecycle_with_self_guard (env : Env) (page_num : N)
    (s : MainWindow) : Prop :=
  forall key,
    result (_page_name env (Some (Z.of_N page_num)) s) = Return key ->
    if decide (key = _current_tab s)
    then calls (_tab_switched env page_num s) = []
    else exists old new,
        tabs s !! _current_tab s = Some old /\ tabs s !! key = Some new /\
        calls (_tab_switched env page_num s) =
          [tab_deselected old; tab_selected new].

(** The relation the specification states between the two key sets. *)
Definition registry_disjoint_from_table (s : MainWindow) : Prop :=
  dom (tabs s) ## (list_to_set tab_labels : gset string).

(** [sample_env] with the confirmation prompt answered yes. *)
Definition sample_env_yes : Env :=
  mkEnv (config_getboolean sample_env) (config_get sample_env)
        (window_is_active sample_env) (window_get_size sample_env)
        (time_time sample_env) (sys_platform sample_env)
        (sys_executable sample_env) (os_path_exists sample_env)
        (chat_port_reply sample_env) true (tabs_get_current_page sample_env).

(** The options of section "state" from which the source's [__init__]
    reads the window geometry. *)
Definition geometry_options : list string :=
  ["main_size_x"; "main_size_y"; "main_maximized"].

Definition is_config_set (c : call) : bool :=
  match c with
  | config_set _ _ _ => true
  | _ => false
  end.

(** A write of the window geometry to the configuration. *)
Definition is_geometry_write (c : call) : bool :=
  match c with
  | config_set section option _ =>
      bool_decide (section = "state") && bool_decide (option ∈ geometry_options)
  | _ => false
  end.

(** The close handler as the specification words it: when the exit goes
    ahead, the window geometry is persisted and the application quit. *)
Definition close_persists_geometry (env : Env) (s : MainWindow) : Prop :=
  negb (config_getboolean env "prefs" "confirm_exit")
  || confirmation_answer env = true ->
  existsb is_geometry_write (calls (_delete env s)) = true /\
  application_quit ∈ calls (_delete env s).


(** The calls that request a sound. *)
Definition is_play_sound (c : call) : bool :=
  match c with
  | platform_play_sound _ => true
  | _ => false
  end.

(** The clock readings at which a timer started at [start] fires. *)
Fixpoint tick_times (start : Q) (periods : nat) : list Q :=
  match periods with
  | O => []
  | S periods =>
      let now := (start + inject_Z status_timeout_ms / 1000)%Q in
      now :: tick_times now periods
  end.

(** ** Menu handlers that only read the window *)

(** [_activate_prefs] and [_activate_ping] write no attribute of the
    window; each is the list of calls it makes, in order. *)
Inductive menu_call : Type :=
| emit_config_changed
| tab_reconfigure (tab : Tab)
| emit_get_station_list
| prompt_for_station (stations : list string)
| emit_ping_station (station : string) (port : string).

#[global] Instance menu_call_eq_dec : EqDecision menu_call.
Proof. solve_decision. Defined.

(** The keys of [self.tabs] in the order [__init__] inserts them, which
    is the order a Python dict iterates in.  No handler inserts or
    deletes a key afterwards. *)
Definition registration_order : list string :=
  ["chat"; "messages"; "event"; "files"; "stations"].

(** [self.tabs.values()]. *)
Definition tabs_values (s : MainWindow) : list Tab :=
  omap (fun key => tabs s !! key) registration_order.

(** [saved] is what [self._config.show(...)] returned. *)
Definition _activate_prefs (saved : bool) (s : MainWindow) : list menu_call :=
  if saved
  then emit_config_changed :: map tab_reconfigure (tabs_values s)
  else [].

(** Python truth value of the station the prompt returned: [None] and
    the empty string are false. *)
Definition station_truthy (station : option string) : bool :=
  match station with
  | Some (String _ _) => true
  | _ => false
  end.

(** [station_list] is the reply to get-station-list, port by port, each
    station already converted by [str]; [station], [port] are what
    [prompt_for_station] returned. *)
Definition _activate_ping (station_list : list (string * list string))
    (station : option string) (port : string) : list menu_call :=
  let stations :=
    foldl (fun stations portlist => stations ++ portlist.2) [] station_list in
  [emit_get_station_list; prompt_for_station stations] ++
  match station with
  | Some name => if station_truthy station
                 then [emit_ping_station name port] else []
  | None => []
  end.

(** ** Notions used in the further properties *)

(** What one event does to the window, as a plain function. *)
Definition effect_of (env : Env) (ev : event) (s : MainWindow) : MainWindow :=
  match ev with
  | switch_page page_num =>
      match list_getitem tab_labels (Z.of_N page_num) with
      | Some key => with_current_tab key s
      | None => s
      end
  | notice key =>
      if config_getboolean env "prefs" ("blink_" +:+ key)
         && negb (window_is_active env)
      then with_urgency_hint true s else s
  | focus_in_event => with_urgency_hint false s
  | status_timeout =>
      if Qgt_bool (time_time env - __last_status s) 30
      then with_statusbar (tail (statusbar s)) s else s
  | status_message msg =>
      mkMainWindow (tabs s) (_current_tab s) (time_time env)
                   (msg :: tail (statusbar s))
                   (config_get env "user" "callsign" :: tail (callbar s))
                   (urgency_hint s)
  | _ => s
  end.

(** What a sequence of events does to the window. *)
Definition effects (events : list (Env * event)) (s : MainWindow) : MainWindow :=
  foldl (fun s e => effect_of e.1 e.2 s) s events.

Definition is_lifecycle (c : call) : bool :=
  match c with
  | tab_deselected _ | tab_selected _ => true
  | _ => false
  end.

(** [brackets t0 trace t]: the lifecycle calls [trace] come in pairs, a
    [deselected()] on the tab selected last ([t0] at first) followed by a
    [selected()], and [t] is the tab selected last at the end. *)
Inductive brackets : Tab -> list call -> Tab -> Prop :=
| brackets_nil (t : Tab) : brackets t [] t
| brackets_pair (t0 t1 t : Tab) (trace : list call) :
    brackets t1 trace t ->
    brackets t0 (tab_deselected t0 :: tab_selected t1 :: trace) t.

(** The last [set_status] among the events, with its environment. *)
Definition note_status (acc : option (Env * string)) (e : Env * event)
  : option (Env * string) :=
  match e.2 with
  | status_message msg => Some (e.1, msg)
  | _ => acc
  end.

Definition last_status_message (events : list (Env * event))
  : option (Env * string) :=
  foldl note_status None events.

(** The recorded time, the call bar and the status bar that go with the
    last [set_status]. *)
Definition recorded_time (acc : option (Env * string)) : Q :=
  match acc with
  | Some (env, _) => time_time env
  | None => 0%Q
  end.

Definition banner (acc : option (Env * string)) : list string :=
  match acc with
  | Some (env, _) => [config_get env "user" "callsign"]
  | None => []
  end.

Definition shows_last (acc : option (Env * string)) (s : MainWindow) : Prop :=
  statusbar s = [] \/
  exists env msg, acc = Some (env, msg) /\ statusbar s = [msg].

Definition is_status_message (ev : event) : bool :=
  match ev with
  | status_message _ => true
  | _ => false
  end.

(** A tick of the status timer later than 30 units after [T]. *)
Definition tick_expired (T : Q) (e : Env * event) : bool :=
  match e.2 with
  | status_timeout => Qgt_bool (time_time e.1 - T) 30
  | _ => false
  end.

(** A close request or Quit menu item that goes ahead: confirmation is
    off, or the user says yes. *)
Definition exit_proceeds (e : Env * event) : bool :=
  match e.2 with
  | delete_event =>
      negb (config_getboolean e.1 "prefs" "confirm_exit")
      || confirmation_answer e.1
  | main_menu_quit at_close =>
      negb (config_getboolean at_close "prefs" "confirm_exit")
      || confirmation_answer at_close
  | _ => false
  end.

(** * Properties *)

(** ** Generic facts about the monad and the primitives *)

Ltac run_handler :=
  cbv [handle _tab_switched _page_name _maybe_blink _got_focus __update_status
       set_status _delete _destroy _activate_save_and_quit _activate_map
       _activate_dq _activate_proxy _activate_conninet _activate_station_pane
       tabs_getitem status_bar_pop
       status_bar_push call_bar_pop call_bar_push set_urgency_hint when
       get_self modify do_call mbind mret M_bind M_ret bind ret raise
       final calls result app].

Ltac step_bind :=
  cbv [mbind mret M_bind M_ret bind ret do_call final calls result app].

Lemma list_getitem_elem_of {A} (l : list A) (index : Z) (x : A) :
  list_getitem l index = Some x -> x ∈ l.
Proof.
  unfold list_getitem.
  destruct (0 <=? index)%Z; [|destruct (_ <=? index)%Z; [|done]];
    intros H; apply list_elem_of_lookup; eauto.
Qed.

Lemma list_getitem_nonneg {A} (l : list A) (index : Z) :
  (0 <= index)%Z -> list_getitem l index = l !! Z.to_nat index.
Proof.
  intros H. unfold list_getitem.
  by destruct (Z.leb_spec 0 index); [|lia].
Qed.

Lemma list_getitem_beyond {A} (l : list A) (index : Z) :
  (Z.of_nat (length l) <= index)%Z -> list_getitem l index = None.
Proof.
  intros H. rewrite list_getitem_nonneg by lia.
  apply lookup_ge_None. lia.
Qed.

(** ** Invariants of the window *)

Lemma invariant_init : invariant __init__.
Proof.
  split; [done | | simpl; lia | simpl; lia].
  simpl. unfold tab_labels. set_solver.
Qed.

Lemma tab_labels_registered (key : string) :
  key ∈ tab_labels -> is_Some (tabs __init__ !! key).
Proof.
  unfold tab_labels. intros H.
  repeat (apply elem_of_cons in H as [->|H]; [by vm_compute; eauto|]).
  by apply elem_of_nil in H.
Qed.

(** ** What each handler does, as one run *)

Lemma page_name_run (env : Env) (index : Z) (s : MainWindow) :
  _page_name env (Some index) s =
    mkRun s [] (match list_getitem tab_labels index with
                | Some key => Return key
                | None => Raise IndexError
                end).
Proof. run_handler. by destruct (list_getitem tab_labels index). Qed.

Lemma tab_switched_run (env : Env) (page_num : N) (s : MainWindow) :
  invariant s ->
  match list_getitem tab_labels (Z.of_N page_num) with
  | Some key =>
      exists old new,
        tabs s !! _current_tab s = Some old /\ tabs s !! key = Some new /\
        _tab_switched env page_num s =
          mkRun (with_current_tab key s)
                [tab_deselected old; tab_selected new] (Return tt)
  | None => _tab_switched env page_num s = mkRun s [] (Raise IndexError)
  end.
Proof.
  intros [Ht Hc _ _].
  destruct (list_getitem tab_labels (Z.of_N page_num)) as [key|] eqn:E.
  - destruct (tab_labels_registered _ Hc) as [old Ho].
    destruct (tab_labels_registered _ (list_getitem_elem_of _ _ _ E)) as [new Hn].
    rewrite <- Ht in Ho, Hn.
    exists old, new. split; [done|]. split; [done|].
    run_handler. rewrite E. run_handler. rewrite Ho. run_handler.
    cbn [with_current_tab tabs _current_tab]. by rewrite Hn.
  - run_handler. by rewrite E.
Qed.

Lemma maybe_blink_run (env : Env) (key : string) (s : MainWindow) :
  let blink := config_getboolean env "prefs" ("blink_" +:+ key) in
  let urgent := blink && negb (window_is_active env) in
  let sounde := negb (bool_decide (key = "event")) &&
                config_getboolean env "sounds" (key +:+ "_enabled") in
  _maybe_blink env key s =
    mkRun (if urgent then with_urgency_hint true s else s)
          ((if urgent then [window_set_urgency_hint true] else []) ++
           (if sounde then [platform_play_sound (config_get env "sounds" key)]
            else []))
          (Return tt).
Proof.
  cbn zeta. run_handler.
  destruct (config_getboolean env "prefs" _), (window_is_active env),
    (bool_decide (key = "event")), (config_getboolean env "sounds" _); done.
Qed.

Lemma update_status_run (env : Env) (s : MainWindow) :
  __update_status env s =
    if Qgt_bool (time_time env - __last_status s) 30
    then mkRun (with_statusbar (tail (statusbar s)) s)
               [statusbar_pop "statusbar"] (Return true)
    else mkRun s [] (Return true).
Proof. run_handler. by destruct (Qgt_bool _ _). Qed.

Lemma set_status_run (env : Env) (msg : string) (s : MainWindow) :
  let call := config_get env "user" "callsign" in
  set_status env msg s =
    mkRun (mkMainWindow (tabs s) (_current_tab s) (time_time env)
                        (msg :: tail (statusbar s)) (call :: tail (callbar s))
                        (urgency_hint s))
          [statusbar_pop "statusbar"; statusbar_push "statusbar" msg;
           window_set_title ("D-RATS: " +:+ call);
           statusbar_pop "callbar"; statusbar_push "callbar" call]
          (Return tt).
Proof. done. Qed.

Lemma delete_run (env : Env) (s : MainWindow) :
  _delete env s =
    mkRun s
      ((if config_getboolean env "prefs" "confirm_exit"
        then [confirmation_prompt "Really exit D-RATS?"] else []) ++
       (if negb (config_getboolean env "prefs" "confirm_exit")
           || confirmation_answer env
        then [window_set_default_size (window_get_size env).1
                                      (window_get_size env).2;
              application_quit]
        else []))
      (Return true).
Proof.
  run_handler.
  destruct (config_getboolean env "prefs" _), (confirmation_answer env),
    (window_get_size env); done.
Qed.

Lemma activate_dq_run (env : Env) (run_status : ResponseType)
    (d_text : string) (s : MainWindow) :
  _activate_dq env run_status d_text s =
    mkRun s
      (match run_status with
       | OK => [emit_get_chat_port;
                emit_user_send_chat "CQCQCQ" (chat_port_reply env)
                                    ("?D*" +:+ d_text +:+ "?") true]
       | _ => []
       end)
      (Return tt).
Proof. by destruct run_status. Qed.

Lemma activate_proxy_run (env : Env) (s : MainWindow) :
  _activate_proxy env s =
    mkRun s
      [subprocess_Popen
         ((if bool_decide (sys_platform env = "darwin")
           then [sys_executable env] else []) ++
          [if os_path_exists env "./d-rats_repeater"
           then "./d-rats_repeater" else "d-rats_repeater"])]
      (Return tt).
Proof.
  run_handler.
  by destruct (bool_decide _), (os_path_exists env _).
Qed.

Lemma activate_save_and_quit_final (env at_close : Env) (s : MainWindow) :
  final (_activate_save_and_quit env at_close s) = s.
Proof.
  unfold _activate_save_and_quit. destruct (window_get_size env) as [w h] eqn:E.
  step_bind. rewrite delete_run. by step_bind.
Qed.

(** ** Invariants are kept by every handler *)

Lemma tail_short {A} (l : list A) : length l <= 1 -> tail l = [].
Proof. destruct l as [|x [|y l]]; simpl; [done | done | lia]. Qed.

Lemma handle_invariant (env : Env) (ev : event) (s : MainWindow) :
  invariant s -> invariant (final (handle env ev s)).
Proof.
  intros Hs. destruct ev as [page_num|key| | |msg| | |at_close| |run_status d_text| |active|active];
    cbn [handle].
  - pose proof (tab_switched_run env page_num s Hs) as H.
    destruct (list_getitem tab_labels (Z.of_N page_num)) as [key|] eqn:E.
    + destruct H as (old & new & _ & _ & ->). destruct Hs.
      split; cbn; try done. by eapply list_getitem_elem_of.
    + by rewrite H.
  - rewrite maybe_blink_run. cbn. destruct Hs. by case_match.
  - by destruct Hs.
  - step_bind. rewrite update_status_run. destruct Hs.
    destruct (Qgt_bool _ _); [|done].
    split; cbn [final with_statusbar tabs _current_tab statusbar callbar];
      try done.
    rewrite tail_short by done. simpl; lia.
  - rewrite set_status_run. destruct Hs.
    split; cbn [final tabs _current_tab statusbar callbar]; try done;
      rewrite tail_short by done; simpl; lia.
  - step_bind. by rewrite delete_run.
  - done.
  - by rewrite activate_save_and_quit_final.
  - done.
  - by rewrite activate_dq_run.
  - by rewrite activate_proxy_run.
  - done.
  - by destruct active.
Qed.

Lemma main_loop_cons (env : Env) (ev : event) events (s : MainWindow) :
  main_loop ((env, ev) :: events) s =
    let r := handle env ev s in
    let rest := main_loop events (final r) in
    (rest.1, calls r ++ rest.2).
Proof. simpl. by destruct (main_loop events _). Qed.

Lemma main_loop_invariant events (s : MainWindow) :
  invariant s -> invariant (main_loop events s).1.
Proof.
  revert s. induction events as [|[env ev] events IH]; intros s Hs; [done|].
  rewrite main_loop_cons. cbn. apply IH. by apply handle_invariant.
Qed.

Lemma state_after_invariant events : invariant (state_after events).
Proof. apply main_loop_invariant, invariant_init. Qed.

(** The registry is never written after [__init__], whatever the state. *)
Lemma tab_switched_tabs (env : Env) (page_num : N) (s : MainWindow) :
  tabs (final (_tab_switched env page_num s)) = tabs s.
Proof.
  run_handler.
  destruct (list_getitem tab_labels (Z.of_N page_num)) as [key|]; [|done].
  run_handler. destruct (tabs s !! _current_tab s); [|done].
  run_handler. cbn [with_current_tab tabs _current_tab].
  by destruct (tabs s !! key).
Qed.

Lemma handle_tabs (env : Env) (ev : event) (s : MainWindow) :
  tabs (final (handle env ev s)) = tabs s.
Proof.
  destruct ev as [page_num|key| | |msg| | |at_close| |run_status d_text| |active|active];
    cbn [handle].
  - apply tab_switched_tabs.
  - rewrite maybe_blink_run. cbn. by case_match.
  - done.
  - step_bind. rewrite update_status_run. by destruct (Qgt_bool _ _).
  - by rewrite set_status_run.
  - step_bind. by rewrite delete_run.
  - done.
  - by rewrite activate_save_and_quit_final.
  - done.
  - by rewrite activate_dq_run.
  - by rewrite activate_proxy_run.
  - done.
  - by destruct active.
Qed.

Lemma registry_dom :
  dom (tabs __init__) = list_to_set tab_labels ∪ ({["stations"]} : gset string).
Proof.
  unfold __init__, tab_labels. cbn [tabs list_to_set].
  rewrite !dom_insert_L, dom_empty_L. set_solver.
Qed.

Lemma stations_not_in_table : "stations" ∉ tab_labels.
Proof. apply (bool_decide_unpack _). by vm_compute. Qed.

(** ** Tab lifecycle (C1) *)

(** C1, as stated, fails: right after start-up "messages" is current, and
    a switch to page 0, which resolves to "messages", still calls
    [deselected()] and then [selected()] on the messages tab. *)
Lemma self_transition_not_skipped :
  ~ lifecycle_with_self_guard sample_env 0 __init__.
Proof.
  intros H. specialize (H "messages" eq_refl).
  vm_compute in H. discriminate H.
Qed.

(** C1, amended: after any sequence of events, a tab switch whose page
    number resolves to a key calls [deselected()] on the tab that was
    current, exactly once, and then [selected()] on the tab of the
    resolved key, exactly once, and makes that key current; there is no
    guard for a switch to the current key, which gets the same two calls.
    A page number that does not resolve raises before any call. *)
Theorem tab_switched_lifecycle (events : list (Env * event)) (env : Env)
    (page_num : N) :
  let s := state_after events in
  let r := _tab_switched env page_num s in
  match result (_page_name env (Some (Z.of_N page_num)) s) with
  | Return key =>
      exists old new,
        tabs s !! _current_tab s = Some old /\ tabs s !! key = Some new /\
        calls r = [tab_deselected old; tab_selected new] /\
        count_occ call_eq_dec (calls r) (tab_deselected old) = 1 /\
        _current_tab (final r) = key /\ result r = Return tt
  | Raise e => calls r = [] /\ final r = s /\ result r = Raise e
  end.
Proof.
  intros s r. subst r. rewrite page_name_run. cbn [result].
  pose proof (tab_switched_run env page_num s (state_after_invariant events)) as H.
  destruct (list_getitem tab_labels (Z.of_N page_num)) as [key|].
  - destruct H as (old & new & Ho & Hn & ->). exists old, new.
    repeat split; try done. cbn [calls count_occ].
    destruct (call_eq_dec _ _) as [|[]]; [|done].
    by destruct (call_eq_dec _ _).
  - by rewrite H.
Qed.

(** ** Registry keys and the display-order table (C9) *)

(** C9, as stated, fails: "messages" is a key of the registry built by
    [__init__] and an entry of the display-order table. *)
Lemma registry_shares_keys_with_table :
  ~ registry_disjoint_from_table __init__.
Proof.
  intros H. apply (H "messages").
  - rewrite registry_dom. apply elem_of_union_l, elem_of_list_to_set.
    apply (bool_decide_unpack _). by vm_compute.
  - apply elem_of_list_to_set. apply (bool_decide_unpack _). by vm_compute.
Qed.

(** C9, amended: every key of the display-order table is a key of the
    registry, whose only other key is "stations"; this holds when
    [__init__] returns and after any sequence of events, because no
    handler writes the registry (and the table is a constant). *)
Theorem registry_contains_table (events : list (Env * event)) (env : Env)
    (ev : event) :
  let s := state_after events in
  (list_to_set tab_labels : gset string) ⊆ dom (tabs s) /\
  dom (tabs s) = list_to_set tab_labels ∪ ({["stations"]} : gset string) /\
  tabs s = tabs __init__ /\
  tabs (final (handle env ev s)) = tabs s.
Proof.
  intros s. pose proof (inv_tabs _ (state_after_invariant events)) as Ht.
  fold s in Ht. rewrite Ht, registry_dom.
  split; [apply union_subseteq_l|]. split; [done|]. split; [done|].
  by rewrite handle_tabs.
Qed.

(** ** Page numbers and keys (C10) *)

Lemma page_name_not_stations (env : Env) (index : option Z) (s : MainWindow) :
  result (_page_name env index s) <> Return "stations".
Proof.
  run_handler.
  destruct (list_getitem tab_labels _) as [key|] eqn:E; cbn; [|done].
  intros [= ->]. apply list_getitem_elem_of in E.
  by apply stations_not_in_table.
Qed.

(** C10: in the tab-switch handler a page number resolves exactly when it
    is one of 0..3, to the entry of the four-entry table at that place; a
    page number above 3 makes the lookup raise [IndexError] and the
    handler stops there, with no call and the window unchanged; no index
    at all resolves to "stations", which is a registered key and is never
    the current tab, before or after a tab switch. *)
Theorem page_index_resolution (events : list (Env * event)) (env : Env)
    (page_num : N) :
  let s := state_after events in
  result (_page_name env (Some (Z.of_N page_num)) s) =
    match page_num with
    | 0%N => Return "messages"
    | 1%N => Return "chat"
    | 2%N => Return "files"
    | 3%N => Return "event"
    | _ => Raise IndexError
    end /\
  ((3 < page_num)%N ->
     _tab_switched env page_num s = mkRun s [] (Raise IndexError)) /\
  (forall index, result (_page_name env index s) <> Return "stations") /\
  tabs s !! "stations" = Some StationsList /\
  _current_tab s <> "stations" /\
  _current_tab (final (_tab_switched env page_num s)) <> "stations".
Proof.
  intros s.
  assert (Hbeyond : (3 < page_num)%N ->
            list_getitem tab_labels (Z.of_N page_num) = None).
  { intros H. apply list_getitem_beyond. cbn. lia. }
  assert (Hcur : forall s', invariant s' -> _current_tab s' <> "stations").
  { intros s' [_ Hc _ _] E. rewrite E in Hc. by apply stations_not_in_table. }
  split; [|split; [|split; [|split; [|split]]]].
  - rewrite page_name_run. cbn [result].
    destruct page_num as [|[[[]|[]|]|[[]|[]|]|]]; try done;
      by rewrite Hbeyond by lia.
  - intros H. run_handler. by rewrite (Hbeyond H).
  - intros index. apply page_name_not_stations.
  - unfold s. rewrite (inv_tabs _ (state_after_invariant events)).
    by vm_compute.
  - apply Hcur, state_after_invariant.
  - apply Hcur.
    apply (handle_invariant env (switch_page page_num)), state_after_invariant.
Qed.

Lemma page_index_resolution_witness :
  (3 < 4)%N /\
  _tab_switched sample_env 4 (state_after []) =
    mkRun (state_after []) [] (Raise IndexError).
Proof.
  split; [reflexivity|].
  apply (proj1 (proj2 (page_index_resolution [] sample_env 4))).
  reflexivity.
Defined.

(** ** The send-query dialog (C2) *)

Lemma substring_prefix (t u : string) :
  String.substring 0 (String.length t) (t +:+ u) = t.
Proof.
  induction t as [|c t IH]; [by destruct u|].
  change (String c (String.substring 0 (String.length t) (t +:+ u)) = String c t).
  by rewrite IH.
Qed.

Lemma length_append (t u : string) :
  String.length (t +:+ u) = String.length t + String.length u.
Proof.
  induction t as [|c t IH]; [done|].
  change (S (String.length (t +:+ u)) = S (String.length t + String.length u)).
  by rewrite IH.
Qed.

(** C2: when the dialog is confirmed ([OK]) with text [t], the handler
    emits get-chat-port and then exactly one user-send-chat, with group
    "CQCQCQ", the port that get-chat-port returned, the payload "?D*"
    followed by [t] followed by "?", and the broadcast flag set; [t] sits
    in the payload unchanged, between the three-character prefix and the
    closing "?".  On any other response nothing is emitted.  In both
    cases the window is left as it was. *)
Theorem activate_dq_emits (env : Env) (run_status : ResponseType)
    (t : string) (s : MainWindow) :
  let r := _activate_dq env run_status t s in
  let payload := "?D*" +:+ t +:+ "?" in
  final r = s /\ result r = Return tt /\
  calls r =
    match run_status with
    | OK => [emit_get_chat_port;
             emit_user_send_chat "CQCQCQ" (chat_port_reply env) payload true]
    | _ => []
    end /\
  String.substring 3 (String.length t) payload = t /\
  String.length payload = 4 + String.length t.
Proof.
  intros r payload. subst r. rewrite activate_dq_run. cbn [final calls result].
  repeat split; try done.
  - apply substring_prefix.
  - unfold payload. rewrite !length_append.
    change (String.length "?D*") with 3. change (String.length "?") with 1.
    lia.
Qed.

(** ** Notices: urgency hint and sound (C5, C6) *)

(** C5: on a notice for tab key [key], [set_urgency_hint(True)] is called
    exactly when the option "blink_<key>" of section "prefs" is true and
    the window is not active at that moment (so the hint is on afterwards
    when that holds or it was on already), and a notice never turns the
    hint off; the focus-in handler turns it off whatever the state. *)
Theorem notice_urgency (env : Env) (key : string) (s s' : MainWindow) :
  let r := _maybe_blink env key s in
  let urgent := config_getboolean env "prefs" ("blink_" +:+ key)
                && negb (window_is_active env) in
  bool_decide (window_set_urgency_hint true ∈ calls r) = urgent /\
  bool_decide (window_set_urgency_hint false ∈ calls r) = false /\
  urgency_hint (final r) = urgent || urgency_hint s /\
  _got_focus s' =
    mkRun (with_urgency_hint false s') [window_set_urgency_hint false]
          (Return tt) /\
  urgency_hint (final (_got_focus s')) = false.
Proof.
  intros r urgent. subst r. rewrite maybe_blink_run. cbn [final calls].
  fold urgent.
  split; [|split; [|split; [|done]]].
  - destruct urgent, (negb _ && _); by vm_compute.
  - destruct urgent, (negb _ && _); by vm_compute.
  - by destruct urgent.
Qed.

(** C6: on a notice for tab key "event" no sound is requested, whatever
    the configuration holds; for any other key the sound configured for
    the key is requested, once, exactly when the option "<key>_enabled"
    of section "sounds" is true.  The handler never fails on the unset
    sound name. *)
Theorem notice_sound (env : Env) (key : string) (s : MainWindow) :
  let r := _maybe_blink env key s in
  List.filter is_play_sound (calls r) =
    (if bool_decide (key = "event") then []
     else if config_getboolean env "sounds" (key +:+ "_enabled")
          then [platform_play_sound (config_get env "sounds" key)]
          else []) /\
  List.filter is_play_sound (calls (_maybe_blink env "event" s)) = [] /\
  result r = Return tt.
Proof.
  intros r. subst r. rewrite !maybe_blink_run. cbn [final calls result].
  split; [|split; [|done]].
  - by destruct (config_getboolean env "prefs" _ && _),
      (bool_decide (key = "event")), (config_getboolean env "sounds" _).
  - by destruct (config_getboolean env "prefs" _ && _).
Qed.

(** ** Launching the repeater (C7) *)

(** C7: the handler spawns one process and touches nothing else.  Its
    argument list is determined by the platform name, the interpreter
    path and whether "./d-rats_repeater" exists: off "darwin" it is the
    single binary element, on "darwin" the interpreter path followed by
    the binary element; the binary element is "./d-rats_repeater" when
    that path exists and the bare name "d-rats_repeater" otherwise. *)
Theorem activate_proxy_args (env : Env) (s : MainWindow) :
  let binary := if os_path_exists env "./d-rats_repeater"
                then "./d-rats_repeater" else "d-rats_repeater" in
  exists args,
    _activate_proxy env s = mkRun s [subprocess_Popen args] (Return tt) /\
    args = (if bool_decide (sys_platform env = "darwin")
            then [sys_executable env; binary] else [binary]) /\
    length args = (if bool_decide (sys_platform env = "darwin") then 2 else 1) /\
    last args = Some binary.
Proof.
  intros binary. rewrite activate_proxy_run. eexists. split; [done|].
  fold binary. by destruct (bool_decide _).
Qed.

(** ** Closing the window (C8) *)

(** C8, as stated, fails: with the confirmation answered yes the exit
    goes ahead, and the handler writes no geometry option to the
    configuration. *)
Lemma close_does_not_persist_geometry :
  ~ close_persists_geometry sample_env_yes __init__.
Proof.
  intros H. destruct (H eq_refl) as [Hwrite _].
  vm_compute in Hwrite. discriminate Hwrite.
Qed.

(** C8, amended: on a close request the handler leaves the window object
    as it is and returns [True].  With "confirm_exit" off it sets the
    window's default size to its current size and calls the
    application's [quit], without asking; with "confirm_exit" on it asks
    first, and does the same two calls when the answer is yes and
    nothing more when the answer is no.  It never writes to the
    configuration: the geometry is not persisted by this handler. *)
Theorem delete_confirms (env : Env) (s : MainWindow) :
  let r := _delete env s in
  let size_and_quit :=
    [window_set_default_size (window_get_size env).1 (window_get_size env).2;
     application_quit] in
  final r = s /\ result r = Return true /\
  calls r =
    (if config_getboolean env "prefs" "confirm_exit"
     then confirmation_prompt "Really exit D-RATS?" ::
          (if confirmation_answer env then size_and_quit else [])
     else size_and_quit) /\
  List.filter is_config_set (calls r) = [].
Proof.
  intros r size_and_quit. subst r. rewrite delete_run.
  cbn [final calls result]. split; [done|]. split; [done|].
  by destruct (config_getboolean env "prefs" _), (confirmation_answer env).
Qed.

(** ** The status bar (C4, C3) *)

(** C4: after any sequence of events, [set_status msg] records the clock
    reading, pops the status bar and then pushes [msg], so that [msg] is
    the only message on it; it then sets the window title to "D-RATS: "
    followed by the callsign and replaces the content of the call bar by
    the callsign.  Whatever the state of the status bar was, [msg] is on
    top afterwards. *)
Theorem set_status_shows (events : list (Env * event)) (env : Env)
    (msg : string) (s' : MainWindow) :
  let s := state_after events in
  let r := set_status env msg s in
  let call := config_get env "user" "callsign" in
  __last_status (final r) = time_time env /\
  statusbar (final r) = [msg] /\
  callbar (final r) = [call] /\
  calls r = [statusbar_pop "statusbar"; statusbar_push "statusbar" msg;
             window_set_title ("D-RATS: " +:+ call);
             statusbar_pop "callbar"; statusbar_push "callbar" call] /\
  result r = Return tt /\
  head (statusbar (final (set_status env msg s'))) = Some msg.
Proof.
  intros s r call. subst r. rewrite !set_status_run.
  cbn [final calls result __last_status statusbar callbar head].
  destruct (state_after_invariant events) as [_ _ Hsb Hcb]. fold s in Hsb, Hcb.
  by rewrite !tail_short.
Qed.

(** *** Expiry of the status text *)

Lemma Qgt_bool_spec (x y : Q) : Qgt_bool x y = true <-> (y < x)%Q.
Proof.
  unfold Qgt_bool. rewrite negb_true_iff, <- not_true_iff_false, Qle_bool_iff.
  split; [apply Qnot_le_lt | apply Qlt_not_le].
Qed.

Lemma status_period : (inject_Z status_timeout_ms / 1000 == 3)%Q.
Proof. reflexivity. Qed.

Lemma run_ticks_cons (env : Env) (now : Q) (ticks : list Q) (s : MainWindow) :
  run_ticks env (now :: ticks) s =
    run_ticks env ticks (final (__update_status (at_time env now) s)).
Proof. done. Qed.

Lemma update_status_final (env : Env) (now : Q) (s : MainWindow) :
  final (__update_status (at_time env now) s) =
    if Qgt_bool (now - __last_status s) 30
    then with_statusbar (tail (statusbar s)) s else s.
Proof.
  rewrite update_status_run. cbn [at_time time_time].
  by destruct (Qgt_bool _ _).
Qed.

Lemma run_ticks_last_status (env : Env) (ticks : list Q) (s : MainWindow) :
  __last_status (run_ticks env ticks s) = __last_status s.
Proof.
  revert s. induction ticks as [|now ticks IH]; intros s; [done|].
  rewrite run_ticks_cons, IH, update_status_final.
  by destruct (Qgt_bool _ _).
Qed.

Lemma run_ticks_cleared (env : Env) (ticks : list Q) (s : MainWindow) :
  statusbar s = [] -> statusbar (run_ticks env ticks s) = [].
Proof.
  revert s. induction ticks as [|now ticks IH]; intros s Hs; [done|].
  rewrite run_ticks_cons. apply IH. rewrite update_status_final.
  destruct (Qgt_bool _ _); [|done]. cbn. by rewrite Hs.
Qed.

Lemma run_ticks_statusbar (env : Env) (ticks : list Q) (s : MainWindow)
    (msg : string) :
  statusbar s = [msg] ->
  statusbar (run_ticks env ticks s) =
    if existsb (fun now => Qgt_bool (now - __last_status s) 30) ticks
    then [] else [msg].
Proof.
  revert s. induction ticks as [|now ticks IH]; intros s Hs; [done|].
  rewrite run_ticks_cons. cbn [existsb]. rewrite update_status_final.
  destruct (Qgt_bool _ _) eqn:E; cbn [orb].
  - apply run_ticks_cleared. cbn. by rewrite Hs.
  - by apply IH.
Qed.

Lemma timeout_add_ticks (env : Env) (start : Q) (periods : nat)
    (s : MainWindow) :
  timeout_add status_timeout_ms __update_status env start periods s =
    run_ticks env (tick_times start periods) s.
Proof.
  revert start s. induction periods as [|periods IH]; intros start s; [done|].
  cbn [timeout_add tick_times]. rewrite run_ticks_cons, <- IH.
  rewrite update_status_run. by destruct (Qgt_bool _ _).
Qed.

Lemma existsb_tick_times (T start : Q) (periods : nat) :
  existsb (fun now => Qgt_bool (now - T) 30) (tick_times start periods) =
    (0 <? periods) &&
    Qgt_bool (start + 3 * inject_Z (Z.of_nat periods) - T) 30.
Proof.
  revert start. induction periods as [|periods IH]; intros start; [done|].
  cbn [tick_times existsb]. rewrite IH. clear IH.
  assert (Hq : (inject_Z (Z.of_nat (S periods))
                == inject_Z (Z.of_nat periods) + 1)%Q).
  { rewrite Nat2Z.inj_succ, <- Z.add_1_r, inject_Z_plus. reflexivity. }
  assert (Hpos : (0 <= inject_Z (Z.of_nat periods))%Q).
  { change 0%Q with (inject_Z 0). rewrite <- Zle_Qle. lia. }
  assert (Hz : periods = 0 -> (inject_Z (Z.of_nat periods) == 0)%Q).
  { by intros ->. }
  pose proof status_period as Hc.
  revert Hq Hpos Hz Hc.
  generalize (inject_Z (Z.of_nat (S periods))) as q'.
  generalize (inject_Z (Z.of_nat periods)) as q.
  generalize (inject_Z status_timeout_ms / 1000)%Q as c.
  intros c q q' Hq Hpos Hz Hc.
  apply eq_true_iff_eq.
  rewrite orb_true_iff, !andb_true_iff, !Qgt_bool_spec, !Nat.ltb_lt.
  split.
  - intros [H|[_ H]]; (split; [lia|lra]).
  - intros [_ H]. destruct periods as [|periods].
    + left. specialize (Hz eq_refl). lra.
    + right. split; [lia|lra].
Qed.

Lemma periods_exceed (x : Q) :
  exists periods, (0 < periods) /\ (x < 3 * inject_Z (Z.of_nat periods))%Q.
Proof.
  exists (S (Z.to_nat (Qceiling x))). split; [lia|].
  pose proof (Qle_ceiling x) as Hx.
  assert (Hc : (inject_Z (Qceiling x)
                <= inject_Z (Z.of_nat (Z.to_nat (Qceiling x))))%Q).
  { rewrite <- Zle_Qle. lia. }
  assert (Hpos : (0 <= inject_Z (Z.of_nat (Z.to_nat (Qceiling x))))%Q).
  { change 0%Q with (inject_Z 0). rewrite <- Zle_Qle. lia. }
  rewrite Nat2Z.inj_succ, <- Z.add_1_r, inject_Z_plus.
  change (inject_Z 1) with 1%Q.
  revert Hx Hc Hpos.
  generalize (inject_Z (Z.of_nat (Z.to_nat (Qceiling x)))) as q.
  generalize (inject_Z (Qceiling x)) as c.
  intros c q Hx Hc Hpos. lra.
Qed.

(** C3: the status timer has a period of 3000 ms, three units of the
    clock that [time.time()] reads.  A tick always asks to be run again,
    never writes the recorded time, and pops the status bar exactly when
    the clock reads more than 30 units past the recorded time.  So after
    a [set_status] at time [T] with no further [set_status]: whatever
    the clock readings of the ticks, the text is there until the first
    tick later than [T + 30] and gone from then on; with the periodic
    timer started at [start], the text is gone after a number of periods
    exactly when the last tick, at [start + 3 * periods], is later than
    [T + 30]; a cleared text stays cleared at every later tick; and the
    text does get cleared. *)
Theorem status_expires (events : list (Env * event)) (env : Env)
    (msg : string) (T start : Q) :
  let s1 := final (set_status (at_time env T) msg (state_after events)) in
  let after periods :=
    timeout_add status_timeout_ms __update_status env start periods s1 in
  (inject_Z status_timeout_ms / 1000 == 3)%Q /\
  (forall now s,
     let r := __update_status (at_time env now) s in
     result r = Return true /\
     __last_status (final r) = __last_status s /\
     statusbar (final r) =
       if Qgt_bool (now - __last_status s) 30
       then tail (statusbar s) else statusbar s) /\
  (forall ticks,
     statusbar (run_ticks env ticks s1) =
       if existsb (fun now => Qgt_bool (now - T) 30) ticks
       then [] else [msg]) /\
  (forall periods,
     __last_status (after periods) = T /\
     statusbar (after periods) =
       if (0 <? periods) &&
          Qgt_bool (start + 3 * inject_Z (Z.of_nat periods) - T) 30
       then [] else [msg]) /\
  (forall periods,
     statusbar (after periods) = [] ->
     (T + 30 < start + 3 * inject_Z (Z.of_nat periods))%Q) /\
  (forall periods later,
     statusbar (after periods) = [] -> periods <= later ->
     statusbar (after later) = []) /\
  (exists periods, statusbar (after periods) = []).
Proof.
  intros s1 after.
  assert (Hbar : statusbar s1 = [msg]).
  { unfold s1. rewrite set_status_run. cbn [final statusbar].
    by rewrite (tail_short _ (inv_statusbar _ (state_after_invariant events))). }
  assert (Hlast : __last_status s1 = T).
  { unfold s1. by rewrite set_status_run. }
  assert (Hafter : forall periods,
            statusbar (after periods) =
              if (0 <? periods) &&
                 Qgt_bool (start + 3 * inject_Z (Z.of_nat periods) - T) 30
              then [] else [msg]).
  { intros periods. unfold after.
    rewrite timeout_add_ticks, (run_ticks_statusbar _ _ _ msg Hbar), Hlast.
    by rewrite existsb_tick_times. }
  assert (Hlate : forall periods,
            statusbar (after periods) = [] ->
            0 < periods /\ (T + 30 < start + 3 * inject_Z (Z.of_nat periods))%Q).
  { intros periods. rewrite Hafter.
    destruct (0 <? periods) eqn:Ep; cbn [andb]; [|done].
    destruct (Qgt_bool _ _) eqn:Eq; [|done]. intros _.
    apply Nat.ltb_lt in Ep. apply Qgt_bool_spec in Eq. split; [done|lra]. }
  split; [apply status_period|].
  split.
  { intros now s r. subst r. rewrite update_status_run. cbn [at_time time_time].
    by destruct (Qgt_bool _ _). }
  split.
  { intros ticks. by rewrite (run_ticks_statusbar _ _ _ msg Hbar), Hlast. }
  split.
  { intros periods. split; [|apply Hafter].
    unfold after. by rewrite timeout_add_ticks, run_ticks_last_status. }
  split; [intros periods H; by apply Hlate|].
  split.
  - intros periods later H Hle. apply Hlate in H as [Hp Hq].
    rewrite Hafter.
    assert (Hpl : (0 <? later) = true) by (apply Nat.ltb_lt; lia).
    assert (Hmono : (inject_Z (Z.of_nat periods)
                     <= inject_Z (Z.of_nat later))%Q).
    { rewrite <- Zle_Qle. lia. }
    assert (Hq' : Qgt_bool (start + 3 * inject_Z (Z.of_nat later) - T) 30 = true).
    { apply Qgt_bool_spec. lra. }
    by rewrite Hpl, Hq'.
  - destruct (periods_exceed (T + 30 - start)) as (periods & Hp & Hq).
    exists periods. rewrite Hafter.
    assert (Hpl : (0 <? periods) = true) by (by apply Nat.ltb_lt).
    assert (Hq' : Qgt_bool (start + 3 * inject_Z (Z.of_nat periods) - T) 30 = true).
    { apply Qgt_bool_spec. lra. }
    by rewrite Hpl, Hq'.
Qed.

Lemma status_expires_witness :
  let after periods :=
    timeout_add status_timeout_ms __update_status sample_env 100 periods
      (final (set_status (at_time sample_env 100) "hi" (state_after []))) in
  statusbar (after 11) = [] /\ 11 <= 12 /\ statusbar (after 12) = [] /\
  (100 + 30 < 100 + 3 * inject_Z (Z.of_nat 11))%Q.
Proof.
  intros after.
  assert (H11 : statusbar (after 11) = []) by (vm_compute; reflexivity).
  split; [exact H11|]. split; [lia|]. split.
  - apply (proj1 (proj2 (proj2 (proj2 (proj2 (proj2
             (status_expires [] sample_env "hi" 100 100)))))) 11 12);
      [exact H11 | lia].
  - apply (proj1 (proj2 (proj2 (proj2 (proj2
             (status_expires [] sample_env "hi" 100 100))))) 11).
    exact H11.
Defined.

(** * Further properties of the handlers *)

(** ** The window as a function of the events *)

Lemma activate_save_and_quit_run (env at_close : Env) (s : MainWindow) :
  _activate_save_and_quit env at_close s =
    mkRun s
      (window_set_default_size (window_get_size env).1 (window_get_size env).2
         :: calls (_delete at_close s))
      (Return tt).
Proof.
  unfold _activate_save_and_quit. destruct (window_get_size env) as [w h].
  step_bind. rewrite delete_run. step_bind.
  by destruct (config_getboolean at_close "prefs" _),
    (confirmation_answer at_close).
Qed.

Lemma handle_final (env : Env) (ev : event) (s : MainWindow) :
  invariant s -> final (handle env ev s) = effect_of env ev s.
Proof.
  intros Hs. destruct ev as [page_num|key| | |msg| | |at_close| |run_status d_text| |active|active];
    cbn [handle effect_of].
  - pose proof (tab_switched_run env page_num s Hs) as H.
    destruct (list_getitem tab_labels (Z.of_N page_num)) as [key|].
    + by destruct H as (old & new & _ & _ & ->).
    + by rewrite H.
  - by rewrite maybe_blink_run.
  - done.
  - step_bind. rewrite update_status_run. by destruct (Qgt_bool _ _).
  - by rewrite set_status_run.
  - step_bind. by rewrite delete_run.
  - done.
  - by rewrite activate_save_and_quit_final.
  - done.
  - by rewrite activate_dq_run.
  - by rewrite activate_proxy_run.
  - done.
  - by destruct active.
Qed.

Lemma main_loop_state (events : list (Env * event)) (s : MainWindow) :
  invariant s -> (main_loop events s).1 = effects events s.
Proof.
  revert s. induction events as [|[env ev] events IH]; intros s Hs; [done|].
  rewrite main_loop_cons. cbn [fst]. unfold effects. cbn [foldl fst snd].
  rewrite <- (handle_final env ev s Hs).
  apply IH. by apply handle_invariant.
Qed.

Lemma main_loop_app (events later : list (Env * event)) (s : MainWindow) :
  main_loop (events ++ later) s =
    ((main_loop later (main_loop events s).1).1,
     (main_loop events s).2 ++ (main_loop later (main_loop events s).1).2).
Proof.
  revert s. induction events as [|[env ev] events IH]; intros s.
  - cbn. by destruct (main_loop later s).
  - rewrite <- app_comm_cons, !main_loop_cons. cbn [fst snd].
    rewrite IH. cbn [fst snd]. by rewrite app_assoc.
Qed.

Lemma state_after_effects (events : list (Env * event)) :
  state_after events = effects events __init__.
Proof. apply main_loop_state, invariant_init. Qed.

Lemma effects_app (events later : list (Env * event)) (s : MainWindow) :
  effects (events ++ later) s = effects later (effects events s).
Proof. apply foldl_app. Qed.

Lemma page_lookup (page_num : N) :
  list_getitem tab_labels (Z.of_N page_num) = tab_labels !! N.to_nat page_num.
Proof. rewrite list_getitem_nonneg by lia. f_equal. lia. Qed.

Lemma page_lookup_in_range (page_num : N) :
  is_Some (tab_labels !! N.to_nat page_num) <-> (page_num <= 3)%N.
Proof. rewrite lookup_lt_is_Some. cbn. lia. Qed.

(** ** The registry lookups of a tab switch *)

(** X1: after any sequence of events both registry lookups of the
    tab-switch handler succeed: the handler fails only on a page number
    above 3, with the [IndexError] of the table lookup, and never with
    [KeyError].  The lookups do fail on a window that is not in such a
    state: if the current key is not registered the handler raises
    [KeyError] for it before any call; if the current key is registered
    and the resolved key is not, the handler has already called
    [deselected()] and made the resolved key current when it raises
    [KeyError] for that key. *)
Theorem tab_switch_lookups (events : list (Env * event)) (env : Env)
    (page_num : N) (s : MainWindow) :
  result (_tab_switched env page_num (state_after events)) =
    (if (page_num <=? 3)%N then Return tt else Raise IndexError) /\
  (forall key,
     tab_labels !! N.to_nat page_num = Some key ->
     tabs s !! _current_tab s = None ->
     _tab_switched env page_num s =
       mkRun s [] (Raise (KeyError (_current_tab s)))) /\
  (forall key old,
     tab_labels !! N.to_nat page_num = Some key ->
     tabs s !! _current_tab s = Some old ->
     tabs s !! key = None ->
     _tab_switched env page_num s =
       mkRun (with_current_tab key s) [tab_deselected old]
             (Raise (KeyError key))).
Proof.
  split; [|split].
  - pose proof (tab_switched_run env page_num _ (state_after_invariant events))
      as H.
    rewrite page_lookup in H.
    destruct (N.leb_spec page_num 3) as [Hle|Hgt].
    + apply page_lookup_in_range in Hle as [key Hkey]. rewrite Hkey in H.
      by destruct H as (old & new & _ & _ & ->).
    + destruct (tab_labels !! N.to_nat page_num) eqn:E.
      * assert (page_num <= 3)%N by (apply page_lookup_in_range; eauto). lia.
      * by rewrite H.
  - intros key Hkey Hcur. run_handler. rewrite page_lookup, Hkey.
    run_handler. by rewrite Hcur.
  - intros key old Hkey Hcur Hnew. run_handler. rewrite page_lookup, Hkey.
    run_handler. rewrite Hcur. run_handler.
    cbn [with_current_tab tabs _current_tab]. by rewrite Hnew.
Qed.

Lemma tab_switch_lookups_witness :
  let lost := with_current_tab "nosuch" __init__ in
  let partial :=
    mkMainWindow (delete "chat" (tabs __init__)) "messages" 0 [] [] false in
  (tab_labels !! N.to_nat 1 = Some "chat" /\
   tabs lost !! _current_tab lost = None /\
   _tab_switched sample_env 1 lost =
     mkRun lost [] (Raise (KeyError "nosuch"))) /\
  (tabs partial !! _current_tab partial = Some MessagesTab /\
   tabs partial !! "chat" = None /\
   _tab_switched sample_env 1 partial =
     mkRun (with_current_tab "chat" partial) [tab_deselected MessagesTab]
           (Raise (KeyError "chat"))).
Proof.
  intros lost partial.
  assert (Hkey : tab_labels !! N.to_nat 1 = Some "chat") by reflexivity.
  assert (Hlost : tabs lost !! _current_tab lost = None)
    by (vm_compute; reflexivity).
  assert (Hold : tabs partial !! _current_tab partial = Some MessagesTab)
    by (vm_compute; reflexivity).
  assert (Hnew : tabs partial !! "chat" = None) by (vm_compute; reflexivity).
  split.
  - split; [exact Hkey|]. split; [exact Hlost|].
    exact (proj1 (proj2 (tab_switch_lookups [] sample_env 1 lost))
             "chat" Hkey Hlost).
  - split; [exact Hold|]. split; [exact Hnew|].
    exact (proj2 (proj2 (tab_switch_lookups [] sample_env 1 partial))
             "chat" MessagesTab Hkey Hold Hnew).
Defined.

(** ** The current tab over a whole run *)

(** X2: the current tab is a function of the tab switches alone: it is
    "messages" until the first page number in range, and after that the
    table entry of the last page number in range; a page number out of
    range and every other event leave it as it is. *)
Theorem current_tab_follows_switches (events : list (Env * event)) :
  _current_tab (state_after events) =
    foldl (fun current e =>
             match e.2 with
             | switch_page page_num =>
                 default current (tab_labels !! N.to_nat page_num)
             | _ => current
             end) "messages" events.
Proof.
  rewrite state_after_effects.
  change "messages" with (_current_tab __init__).
  generalize __init__ as s. unfold effects.
  induction events as [|[env ev] events IH]; intros s; [done|].
  cbn [foldl fst snd]. rewrite IH. f_equal.
  destruct ev as [page_num|key| | |msg| | |at_close| |run_status d_text| |active|active];
    cbn [effect_of]; try done.
  - rewrite page_lookup. by destruct (tab_labels !! N.to_nat page_num).
  - by destruct (_ && _).
  - by destruct (Qgt_bool _ _).
Qed.

(** ** Lifecycle calls over a whole run *)

Lemma brackets_app (t0 t1 t : Tab) (trace later : list call) :
  brackets t0 trace t1 -> brackets t1 later t ->
  brackets t0 (trace ++ later) t.
Proof.
  induction 1 as [|t0 t1 t' trace H IH]; intros Hl; [done|].
  cbn. constructor. by apply IH.
Qed.

Lemma other_events_no_lifecycle (env : Env) (ev : event) (s : MainWindow) :
  match ev with
  | switch_page _ => True
  | _ => List.filter is_lifecycle (calls (handle env ev s)) = [] /\
         tabs (effect_of env ev s) = tabs s /\
         _current_tab (effect_of env ev s) = _current_tab s
  end.
Proof.
  destruct ev as [page_num|key| | |msg| | |at_close| |run_status d_text| |active|active];
    cbn [handle effect_of]; try done.
  - rewrite maybe_blink_run. cbn [calls].
    by destruct (config_getboolean env "prefs" _ && _),
      (negb _ && config_getboolean env "sounds" _).
  - step_bind. rewrite update_status_run. by destruct (Qgt_bool _ _).
  - step_bind. rewrite delete_run. cbn [calls].
    by destruct (config_getboolean env "prefs" _), (confirmation_answer env).
  - rewrite activate_save_and_quit_run, delete_run. cbn [calls].
    by destruct (config_getboolean at_close "prefs" _),
      (confirmation_answer at_close).
  - rewrite activate_dq_run. by destruct run_status.
  - by destruct active.
Qed.

Lemma handle_brackets (env : Env) (ev : event) (s : MainWindow) :
  invariant s ->
  exists t0 t1,
    tabs s !! _current_tab s = Some t0 /\
    tabs (final (handle env ev s)) !! _current_tab (final (handle env ev s))
      = Some t1 /\
    brackets t0 (List.filter is_lifecycle (calls (handle env ev s))) t1.
Proof.
  intros Hs.
  destruct (tab_labels_registered _ (inv_current _ Hs)) as [t0 Ht0].
  rewrite <- (inv_tabs _ Hs) in Ht0.
  pose proof (other_events_no_lifecycle env ev s) as Hother.
  rewrite (handle_final env ev s Hs).
  destruct ev as [page_num|key| | |msg| | |at_close| |run_status d_text| |active|active];
    try (destruct Hother as (-> & -> & ->); exists t0, t0;
         split; [done|]; split; [done|]; constructor).
  clear Hother. cbn [handle effect_of].
  pose proof (tab_switched_run env page_num s Hs) as H.
  destruct (list_getitem tab_labels (Z.of_N page_num)) as [key|].
  - destruct H as (old & new & Ho & Hn & ->). exists old, new.
    split; [done|]. split; [done|]. cbn. repeat constructor.
  - rewrite H. exists t0, t0. split; [done|]. split; [done|]. constructor.
Qed.

Lemma main_loop_brackets (events : list (Env * event)) (s : MainWindow) :
  invariant s ->
  exists t0 t,
    tabs s !! _current_tab s = Some t0 /\
    tabs (main_loop events s).1 !! _current_tab (main_loop events s).1
      = Some t /\
    brackets t0 (List.filter is_lifecycle (main_loop events s).2) t.
Proof.
  revert s. induction events as [|[env ev] events IH]; intros s Hs.
  - destruct (handle_brackets sample_env destroy s Hs) as (t0 & _ & Ht0 & _).
    exists t0, t0. split; [done|]. split; [done|]. constructor.
  - rewrite main_loop_cons. cbn [fst snd].
    destruct (handle_brackets env ev s Hs) as (t0 & t1 & Ht0 & Ht1 & Hb).
    destruct (IH _ (handle_invariant env ev s Hs)) as (t1' & t & Ht1' & Ht & Hb').
    rewrite Ht1 in Ht1'. injection Ht1' as <-.
    exists t0, t. split; [done|]. split; [done|].
    rewrite List.filter_app. by eapply brackets_app.
Qed.

(** X3: over any run, the lifecycle calls come in pairs of one
    [deselected()] followed by one [selected()]; the first
    [deselected()] is on the messages tab, every later one is on the tab
    of the [selected()] just before it, and the tab selected last is the
    one registered under the current key.  No tab is deselected that was
    not the selected one. *)
Theorem lifecycle_calls_bracketed (events : list (Env * event)) :
  exists t,
    tabs (state_after events) !! _current_tab (state_after events) = Some t /\
    brackets MessagesTab
             (List.filter is_lifecycle (main_loop events __init__).2) t.
Proof.
  destruct (main_loop_brackets events __init__ invariant_init)
    as (t0 & t & Ht0 & Ht & Hb).
  assert (t0 = MessagesTab) as -> by (vm_compute in Ht0; congruence).
  by exists t.
Qed.

(** ** The status bars over a whole run *)

Lemma effects_status_record (events : list (Env * event)) (s : MainWindow)
    (acc : option (Env * string)) :
  __last_status s = recorded_time acc -> callbar s = banner acc ->
  shows_last acc s ->
  __last_status (effects events s) = recorded_time (foldl note_status acc events) /\
  callbar (effects events s) = banner (foldl note_status acc events) /\
  shows_last (foldl note_status acc events) (effects events s).
Proof.
  unfold effects.
  revert s acc. induction events as [|[env ev] events IH];
    intros s acc Hr Hb Hs; [done|].
  cbn [foldl fst snd]. apply IH; clear IH;
    destruct ev as [page_num|key| | |msg| | |at_close| |run_status d_text| |active|active];
    cbn [effect_of note_status fst snd]; try done;
    try (by destruct (list_getitem tab_labels _));
    try (by destruct (_ && _));
    try (destruct (Qgt_bool _ _); [|done]).
  - done.
  - done.
  - rewrite Hb. by destruct acc as [[]|].
  - left. cbn. by destruct Hs as [->|(e & m & _ & ->)].
  - right. exists env, msg. split; [done|]. cbn.
    by destruct Hs as [->|(e & m & _ & ->)].
Qed.

(** X4: after any run, the recorded status time is the clock reading of
    the last [set_status] (0 if there was none); the call bar holds
    exactly the callsign configured at the last [set_status] (nothing if
    there was none) and is never cleared by the timer; and the status
    bar is either empty or holds exactly the message of the last
    [set_status], never an older one. *)
Theorem status_bars_show_last_message (events : list (Env * event)) :
  let s := state_after events in
  __last_status s = match last_status_message events with
                    | Some (env, _) => time_time env
                    | None => 0%Q
                    end /\
  callbar s = match last_status_message events with
              | Some (env, _) => [config_get env "user" "callsign"]
              | None => []
              end /\
  (statusbar s = [] \/
   exists env msg,
     last_status_message events = Some (env, msg) /\ statusbar s = [msg]).
Proof.
  intros s. subst s. rewrite state_after_effects.
  apply (effects_status_record events __init__ None); by try left.
Qed.

Lemma effects_cleared (after : list (Env * event)) (s : MainWindow) :
  forallb (fun e => negb (is_status_message e.2)) after = true ->
  statusbar s = [] -> statusbar (effects after s) = [].
Proof.
  unfold effects. revert s.
  induction after as [|[env ev] after IH]; intros s Hno Hs; [done|].
  cbn [forallb fst snd] in Hno. apply andb_true_iff in Hno as [Hev Hno].
  cbn [foldl fst snd]. apply IH; [done|].
  destruct ev as [page_num|key| | |msg| | |at_close| |run_status d_text| |active|active];
    cbn [effect_of]; try done.
  - by destruct (list_getitem tab_labels _).
  - by destruct (_ && _).
  - destruct (Qgt_bool _ _); [|done]. cbn. by rewrite Hs.
Qed.

Lemma effects_cons (e : Env * event) (after : list (Env * event))
    (s : MainWindow) :
  effects (e :: after) s = effects after (effect_of e.1 e.2 s).
Proof. done. Qed.

Lemma effects_status_text (after : list (Env * event)) (s : MainWindow)
    (msg : string) :
  forallb (fun e => negb (is_status_message e.2)) after = true ->
  statusbar s = [msg] ->
  statusbar (effects after s) =
    if existsb (tick_expired (__last_status s)) after then [] else [msg].
Proof.
  revert s.
  induction after as [|[env ev] after IH]; intros s Hno Hs; [done|].
  cbn [forallb fst snd] in Hno. apply andb_true_iff in Hno as [Hev Hno].
  rewrite effects_cons. cbn [existsb fst snd].
  unfold tick_expired at 1. cbn [fst snd].
  destruct ev as [page_num|key| | |m| | |at_close| |run_status d_text| |active|active];
    cbn [effect_of orb]; try done; try (by rewrite IH).
  - destruct (list_getitem tab_labels _); by rewrite IH.
  - destruct (_ && _); by rewrite IH.
  - destruct (Qgt_bool _ _); cbn [orb]; [|by rewrite IH].
    apply effects_cleared; [done|]. cbn. by rewrite Hs.
Qed.

(** X5: once [set_status] has shown a message, and for as long as no
    other [set_status] follows, only the status timer removes it: tab
    switches, notices, focus changes and menu actions leave it in place,
    and it is gone exactly when one of the ticks since then came later
    than 30 units after the [set_status]. *)
Theorem status_text_until_expiry (before after : list (Env * event))
    (env : Env) (msg : string) :
  forallb (fun e => negb (is_status_message e.2)) after = true ->
  statusbar (state_after (before ++ (env, status_message msg) :: after)) =
    if existsb (tick_expired (time_time env)) after then [] else [msg].
Proof.
  intros Hno. rewrite state_after_effects, effects_app.
  rewrite <- state_after_effects.
  rewrite effects_cons. cbn [fst snd].
  rewrite (effects_status_text after _ msg Hno); [done|].
  cbn. by rewrite (tail_short _ (inv_statusbar _ (state_after_invariant before))).
Qed.

Lemma status_text_until_expiry_witness :
  let after := [(at_time sample_env 120, status_timeout);
                (sample_env, switch_page 1);
                (sample_env, notice "chat")] in
  forallb (fun e => negb (is_status_message e.2)) after = true /\
  statusbar (state_after ([(sample_env, focus_in_event)] ++
                          (at_time sample_env 100, status_message "hi") :: after))
    = ["hi"].
Proof.
  intros after. split; [reflexivity|].
  apply (status_text_until_expiry [(sample_env, focus_in_event)] after
           (at_time sample_env 100) "hi").
  reflexivity.
Defined.

(** ** How long a status text stays *)




(** ** The urgency hint over a whole run *)

Lemma effects_urgency_hint (events : list (Env * event)) (s : MainWindow) :
  urgency_hint (effects events s) =
    foldl (fun hint e =>
             match e.2 with
             | notice key =>
                 hint || (config_getboolean e.1 "prefs" ("blink_" +:+ key)
                          && negb (window_is_active e.1))
             | focus_in_event => false
             | _ => hint
             end) (urgency_hint s) events.
Proof.
  revert s. unfold effects.
  induction events as [|[env ev] events IH]; intros s; [done|].
  cbn [foldl fst snd]. rewrite IH. f_equal.
  destruct ev as [page_num|key| | |msg| | |at_close| |run_status d_text| |active|active];
    cbn [effect_of]; try done.
  - by destruct (list_getitem tab_labels _).
  - destruct (_ && _); cbn; [by rewrite orb_true_r | by rewrite orb_false_r].
  - by destruct (Qgt_bool _ _).
Qed.

(** X7: the urgency hint is a function of the notices and focus-in
    events alone: a focus-in turns it off, a notice for a key whose
    "blink_<key>" option is on, arriving while the window is not active,
    turns it on, and nothing else touches it; it is off at start-up. *)
Theorem urgency_hint_follows_notices (events : list (Env * event)) :
  urgency_hint (state_after events) =
    foldl (fun hint e =>
             match e.2 with
             | notice key =>
                 hint || (config_getboolean e.1 "prefs" ("blink_" +:+ key)
                          && negb (window_is_active e.1))
             | focus_in_event => false
             | _ => hint
             end) false events.
Proof. rewrite state_after_effects. apply effects_urgency_hint. Qed.

(** ** Save and quit *)

(** X8: the Quit menu item sets the default size to the size it reads
    when it is activated, before it runs the close handler.  So the size
    is set even when the user then declines the confirmation, in which
    case the application is not quit; when the exit goes ahead the close
    handler sets the size again, to the size it reads then, and the
    application is quit once.  The window object is left as it was. *)
Theorem save_and_quit_sizes_first (env at_close : Env) (s : MainWindow) :
  let r := _activate_save_and_quit env at_close s in
  let size := window_set_default_size (window_get_size env).1
                                      (window_get_size env).2 in
  let size_at_close :=
    window_set_default_size (window_get_size at_close).1
                            (window_get_size at_close).2 in
  let prompt := confirmation_prompt "Really exit D-RATS?" in
  final r = s /\ result r = Return tt /\
  calls r = size :: calls (_delete at_close s) /\
  calls r =
    if config_getboolean at_close "prefs" "confirm_exit"
    then if confirmation_answer at_close
         then [size; prompt; size_at_close; application_quit]
         else [size; prompt]
    else [size; size_at_close; application_quit].
Proof.
  intros r size size_at_close prompt. subst r.
  rewrite activate_save_and_quit_run.
  cbn [final calls result]. split; [done|]. split; [done|]. split; [done|].
  rewrite delete_run. cbn [calls].
  by destruct (config_getboolean at_close "prefs" _),
    (confirmation_answer at_close).
Qed.

(** ** Preferences and ping *)

(** X10: after any run, a saved preferences dialog emits config-changed
    and then calls [reconfigure()] on every tab of the registry, each
    exactly once, in the order the tabs were registered; a dialog that
    was not saved causes no call at all. *)
Theorem prefs_reconfigures_every_tab (events : list (Env * event))
    (tab : Tab) :
  let s := state_after events in
  _activate_prefs false s = [] /\
  _activate_prefs true s =
    emit_config_changed ::
    map tab_reconfigure
        [ChatTab; MessagesTab; EventTab; FilesTab; StationsList] /\
  count_occ menu_call_eq_dec (_activate_prefs true s) (tab_reconfigure tab) = 1 /\
  count_occ menu_call_eq_dec (_activate_prefs true s) emit_config_changed = 1.
Proof.
  intros s. split; [done|].
  assert (H : _activate_prefs true s =
              emit_config_changed ::
              map tab_reconfigure
                  [ChatTab; MessagesTab; EventTab; FilesTab; StationsList]).
  { unfold _activate_prefs, tabs_values, s.
    rewrite (inv_tabs _ (state_after_invariant events)). by vm_compute. }
  rewrite H. split; [done|]. split; [by destruct tab|done].
Qed.

(** X11: the Ping menu item first asks for the station list and shows
    the prompt with the stations of all ports, port after port; it pings
    exactly when the prompt returned a non-empty station name, with that
    name and the port the prompt returned, and never when the prompt
    returned [None] or an empty name. *)
Theorem ping_only_named_station (station_list : list (string * list string))
    (station : option string) (port : string) :
  _activate_ping station_list station port =
    emit_get_station_list ::
    prompt_for_station (concat (map snd station_list)) ::
    match station with
    | Some name => if bool_decide (name = "") then []
                   else [emit_ping_station name port]
    | None => []
    end.
Proof.
  unfold _activate_ping. cbn [app]. do 2 f_equal.
  - f_equal. change [] with (@nil string ++ []) at 1.
    assert (H : forall acc : list string,
              foldl (fun stations (portlist : string * list string) =>
                       stations ++ portlist.2) acc station_list =
              acc ++ concat (map snd station_list)).
    { induction station_list as [|p l IH]; intros acc; cbn.
      - by rewrite app_nil_r.
      - by rewrite IH, app_assoc. }
    by rewrite H.
  - by destruct station as [[|c name]|].
Qed.

(** ** Quitting *)

Lemma handle_quit_count (env : Env) (ev : event) (s : MainWindow) :
  invariant s ->
  count_occ call_eq_dec (calls (handle env ev s)) application_quit =
    if exit_proceeds (env, ev) then 1 else 0.
Proof.
  intros Hs. unfold exit_proceeds. cbn [fst snd].
  destruct ev as [page_num|key| | |msg| | |at_close| |run_status d_text| |active|active];
    cbn [handle].
  - pose proof (tab_switched_run env page_num s Hs) as H.
    destruct (list_getitem tab_labels (Z.of_N page_num)) as [key|].
    + by destruct H as (old & new & _ & _ & ->).
    + by rewrite H.
  - rewrite maybe_blink_run. cbn [calls].
    by destruct (config_getboolean env "prefs" _ && _),
      (negb _ && config_getboolean env "sounds" _).
  - done.
  - step_bind. rewrite update_status_run. by destruct (Qgt_bool _ _).
  - by rewrite set_status_run.
  - step_bind. rewrite delete_run. cbn [calls].
    by destruct (config_getboolean env "prefs" _), (confirmation_answer env).
  - done.
  - rewrite activate_save_and_quit_run, delete_run. cbn [calls].
    by destruct (config_getboolean at_close "prefs" _),
      (confirmation_answer at_close).
  - done.
  - rewrite activate_dq_run. by destruct run_status.
  - by rewrite activate_proxy_run.
  - done.
  - by destruct active.
Qed.

Lemma main_loop_quit_count (events : list (Env * event)) (s : MainWindow) :
  invariant s ->
  count_occ call_eq_dec (main_loop events s).2 application_quit =
    length (List.filter exit_proceeds events).
Proof.
  revert s. induction events as [|[env ev] events IH]; intros s Hs; [done|].
  rewrite main_loop_cons. cbn [fst snd List.filter].
  rewrite count_occ_app, (handle_quit_count env ev s Hs),
    (IH _ (handle_invariant env ev s Hs)).
  by destruct (exit_proceeds (env, ev)).
Qed.

(** X12: over any run, [application.quit()] is called once for every
    close request or Quit menu item that goes ahead (confirmation off,
    or answered yes) and at no other time: never after a declined
    confirmation and never by any other event. *)
Theorem quit_only_on_confirmed_exit (events : list (Env * event)) :
  count_occ call_eq_dec (main_loop events __init__).2 application_quit =
    length (List.filter exit_proceeds events).
Proof. apply main_loop_quit_count, invariant_init. Qed.

(** ** Writes to the configuration *)



